(** * taxadb.taxid: the [TaxID] query class over the [taxa] table

    A shallow embedding of [src/taxadb/taxid.py].  The table is a list of
    rows in storage order; a peewee point query [Taxa.get(expr)] returns the
    first row satisfying [expr] and raises [Taxa.DoesNotExist] when there is
    none.  Python's [try ... except Taxa.DoesNotExist] is kept as an explicit
    handler over an outcome type that also records a loop that has not
    finished within the steps it was given. *)

From Stdlib Require Import List String ZArith QArith Bool Lia.
From Stdlib Require Import Sorting.Sorted.
Import ListNotations.

Local Open Scope Z_scope.
Local Open Scope string_scope.
Local Open Scope list_scope.

(** ** Outcomes: return values, exceptions, unfinished loops *)

Inductive exn : Type :=
| DoesNotExist
| DatabaseError.

Inductive outcome (A : Type) : Type :=
| Returned (v : A)
| Raised (e : exn)
| Diverged.

Arguments Returned {A} v.
Arguments Raised {A} e.
Arguments Diverged {A}.

Definition bind {A B : Type} (c : outcome A) (k : A -> outcome B) : outcome B :=
  match c with
  | Returned v => k v
  | Raised e => Raised e
  | Diverged => Diverged
  end.

Notation "x <- c ;; k" := (bind c (fun x => k))
  (at level 61, c at next level, right associativity).

(** [try: c except Taxa.DoesNotExist: h] *)
Definition except_DoesNotExist {A : Type} (c : outcome A) (h : outcome A) : outcome A :=
  match c with
  | Raised DoesNotExist => h
  | _ => c
  end.

Definition outcome_map {A B : Type} (f : A -> B) (c : outcome A) : outcome B :=
  match c with
  | Returned v => Returned (f v)
  | Raised e => Raised e
  | Diverged => Diverged
  end.

(** ** The [taxa] table *)

(** Modelled from the spec: the row type [Taxa] of [taxadb.schema], which is
    not among the sources.  The spec's data model gives a Taxon the fields
    taxid (integer), name (string) and parent_taxid (integer); the field
    names are the ones [taxid.py] reads. *)
Record Taxa : Type := mkTaxa {
  ncbi_taxid : Z;
  tax_name : string;
  parent_taxid : Z
}.

Definition table : Type := list Taxa.

(** The query expressions [Taxa.ncbi_taxid == taxid] and
    [Taxa.tax_name == sci_name]. *)
Definition ncbi_taxid_eq (taxid : Z) (r : Taxa) : bool := Z.eqb (ncbi_taxid r) taxid.
Definition tax_name_eq (sci_name : string) (r : Taxa) : bool :=
  String.eqb (tax_name r) sci_name.

(** [Taxa.get(expr)]: the first matching row, or [Taxa.DoesNotExist]. *)
Definition Taxa_get (expr : Taxa -> bool) (db : table) : outcome Taxa :=
  match find expr db with
  | Some r => Returned r
  | None => Raised DoesNotExist
  end.

(** ** Point lookups *)

(** [TaxID.sci_name]; Python's [None] is [None], a name [n] is [Some n]. *)
Definition sci_name (db : table) (taxid : Z) : outcome (option string) :=
  except_DoesNotExist
    (name <- outcome_map tax_name (Taxa_get (ncbi_taxid_eq taxid) db) ;;
     Returned (Some name))
    (Returned None).

(** [TaxID.tax_id] *)
Definition tax_id (db : table) (sci_name : string) : outcome (option Z) :=
  except_DoesNotExist
    (ncbi_taxid <- outcome_map ncbi_taxid (Taxa_get (tax_name_eq sci_name) db) ;;
     Returned (Some ncbi_taxid))
    (Returned None).

(** ** Lineage walks *)

(** The [while current_lineage != 'root'] loop of [lineage_id].  The loop
    test comes first, so a walk already standing on the root row returns
    whatever the number of steps left; each further iteration uses one. *)
Fixpoint lineage_id_while (fuel : nat) (db : table) (lineage_list : list Z)
    (current_lineage : string) (current_lineage_id parent : Z)
  : outcome (list Z) :=
  if String.eqb current_lineage "root" then Returned lineage_list
  else
    match fuel with
    | O => Diverged
    | S fuel' =>
        let lineage_list := lineage_list ++ [current_lineage_id] in
        new_query <- Taxa_get (ncbi_taxid_eq parent) db ;;
        lineage_id_while fuel' db lineage_list
          (tax_name new_query) (ncbi_taxid new_query) (parent_taxid new_query)
    end.

(** [TaxID.lineage_id] *)
Definition lineage_id (fuel : nat) (db : table) (taxid : Z) (reverse : bool)
  : outcome (option (list Z)) :=
  except_DoesNotExist
    (current_lineage <- outcome_map tax_name (Taxa_get (ncbi_taxid_eq taxid) db) ;;
     current_lineage_id <- outcome_map ncbi_taxid (Taxa_get (ncbi_taxid_eq taxid) db) ;;
     parent <- outcome_map parent_taxid (Taxa_get (ncbi_taxid_eq taxid) db) ;;
     lineage_list <- lineage_id_while fuel db [] current_lineage current_lineage_id parent ;;
     Returned (Some (if reverse then rev lineage_list else lineage_list)))
    (Returned None).

(** The loop of [lineage_name]: the same walk, collecting names. *)
Fixpoint lineage_name_while (fuel : nat) (db : table) (lineage_list : list string)
    (current_lineage : string) (parent : Z)
  : outcome (list string) :=
  if String.eqb current_lineage "root" then Returned lineage_list
  else
    match fuel with
    | O => Diverged
    | S fuel' =>
        let lineage_list := lineage_list ++ [current_lineage] in
        new_query <- Taxa_get (ncbi_taxid_eq parent) db ;;
        lineage_name_while fuel' db lineage_list
          (tax_name new_query) (parent_taxid new_query)
    end.

(** [TaxID.lineage_name] *)
Definition lineage_name (fuel : nat) (db : table) (taxid : Z) (reverse : bool)
  : outcome (option (list string)) :=
  except_DoesNotExist
    (current_lineage <- outcome_map tax_name (Taxa_get (ncbi_taxid_eq taxid) db) ;;
     parent <- outcome_map parent_taxid (Taxa_get (ncbi_taxid_eq taxid) db) ;;
     lineage_list <- lineage_name_while fuel db [] current_lineage parent ;;
     Returned (Some (if reverse then rev lineage_list else lineage_list)))
    (Returned None).

(** ** Fuzzy search *)

(** A row of the raw query: the [taxa.*] columns and the two computed
    columns [similarity] and [levenshtein]. *)
Record fuzzy_row : Type := mkFuzzy {
  taxa : Taxa;
  similarity : Q;
  levenshtein : Z
}.

Section FuzzyQuery.

(** The database's string functions [similarity(a, b)] and
    [levenshtein(a, b)] and its trigram operator [a % b], which the query
    text names and the engine provides. *)
Variable pg_similarity : string -> string -> Q.
Variable pg_levenshtein : string -> string -> Z.
Variable pg_similar : string -> string -> bool.

(** [SELECT taxa.*, similarity(taxa.tax_name, %s), levenshtein(taxa.tax_name, %s)] *)
Definition select_fuzzy (sci_name : string) (r : Taxa) : fuzzy_row :=
  mkFuzzy r (pg_similarity (tax_name r) sci_name)
            (pg_levenshtein (tax_name r) sci_name).

(** [WHERE taxa.tax_name % %s] *)
Definition where_similar (sci_name : string) (db : table) : table :=
  filter (fun r => pg_similar (tax_name r) sci_name) db.

(** [order by similarity desc]: rows of equal similarity keep the order
    they had. *)
Fixpoint insert_desc (x : fuzzy_row) (l : list fuzzy_row) : list fuzzy_row :=
  match l with
  | [] => [x]
  | y :: l' =>
      if Qle_bool (similarity y) (similarity x) then x :: l
      else y :: insert_desc x l'
  end.

Definition order_by_similarity_desc (l : list fuzzy_row) : list fuzzy_row :=
  fold_right insert_desc [] l.

(** [Taxa.raw(query, sci_name, sci_name, sci_name, limit)], iterated:
    the one parameter [sci_name] fills the first three placeholders and
    [limit], a row count, the fourth. *)
Definition Taxa_raw (db : table) (sci_name : string) (limit : nat)
  : outcome (list fuzzy_row) :=
  Returned
    (firstn limit
       (order_by_similarity_desc
          (map (select_fuzzy sci_name) (where_similar sci_name db)))).

(** [TaxID.tax_id_fuzzy]; [limit = None] is the call that leaves the
    argument out, so that the default [limit=10] applies. *)
Definition tax_id_fuzzy (db : table) (sci_name : string) (limit : option nat)
  : outcome (option (list fuzzy_row)) :=
  let limit := match limit with Some n => n | None => 10%nat end in
  except_DoesNotExist
    (ncbi_taxids <- Taxa_raw db sci_name limit ;;
     Returned (Some ncbi_taxids))
    (Returned None).

End FuzzyQuery.

(** Descending similarity: every row scores at least as high as the rows
    after it. *)
Definition similarity_desc (a b : fuzzy_row) : Prop :=
  Qle (similarity b) (similarity a).

(** ** Vocabulary of the specification *)

(** A taxid is present when some row of the table carries it. *)
Definition present (db : table) (taxid : Z) : Prop :=
  exists r, In r db /\ ncbi_taxid r = taxid.

Definition name_present (db : table) (name : string) : Prop :=
  exists r, In r db /\ tax_name r = name.

(** The taxid column is the table's primary key; names may be unique. *)
Definition primary_key (db : table) : Prop := NoDup (map ncbi_taxid db).
Definition unique_names (db : table) : Prop := NoDup (map tax_name db).

(** The row reached from [taxid] by following [k] parent pointers. *)
Fixpoint ancestor (db : table) (taxid : Z) (k : nat) : option Taxa :=
  match k with
  | O => find (ncbi_taxid_eq taxid) db
  | S k' =>
      match ancestor db taxid k' with
      | Some r => find (ncbi_taxid_eq (parent_taxid r)) db
      | None => None
      end
  end.

Definition is_root (o : option Taxa) : bool :=
  match o with
  | Some r => String.eqb (tax_name r) "root"
  | None => false
  end.

Definition is_inner (o : option Taxa) : bool :=
  match o with
  | Some r => negb (String.eqb (tax_name r) "root")
  | None => false
  end.

Definition is_missing (o : option Taxa) : bool :=
  match o with
  | Some _ => false
  | None => true
  end.

(** The rows after 0, ..., k-1 hops exist and are not named "root". *)
Definition inner_chain (db : table) (taxid : Z) (k : nat) : bool :=
  forallb (fun i => is_inner (ancestor db taxid i)) (seq 0 k).

(** The parent chain of [taxid] reaches the root in exactly [k] hops. *)
Definition reaches_root_in (db : table) (taxid : Z) (k : nat) : bool :=
  inner_chain db taxid k && is_root (ancestor db taxid k).

(** The parent chain of [taxid] breaks after [k] hops: the taxid itself
    ([k = 0]) or the parent pointer followed at hop [k] names no row. *)
Definition dangles_at (db : table) (taxid : Z) (k : nat) : bool :=
  inner_chain db taxid k && is_missing (ancestor db taxid k).

(** The stored name of each taxid of a list, when all of them are stored. *)
Fixpoint stored_names (db : table) (ids : list Z) : option (list string) :=
  match ids with
  | [] => Some []
  | i :: ids' =>
      match find (ncbi_taxid_eq i) db, stored_names db ids' with
      | Some r, Some ns => Some (tax_name r :: ns)
      | _, _ => None
      end
  end.

(** ** The walk both lineage operations perform *)

(** The rows the loop visits, kept whole; [lineage_id_while] keeps their
    taxids and [lineage_name_while] their names. *)
Fixpoint walk (fuel : nat) (db : table) (visited : list Taxa) (current : Taxa)
  : outcome (list Taxa) :=
  if String.eqb (tax_name current) "root" then Returned visited
  else
    match fuel with
    | O => Diverged
    | S fuel' =>
        new_query <- Taxa_get (ncbi_taxid_eq (parent_taxid current)) db ;;
        walk fuel' db (visited ++ [current]) new_query
    end.

Definition walk_from (fuel : nat) (db : table) (taxid : Z) : outcome (list Taxa) :=
  current <- Taxa_get (ncbi_taxid_eq taxid) db ;;
  walk fuel db [] current.

(** What follows the loop: the optional reversal, the [return] and the
    [except Taxa.DoesNotExist: return None] around the whole body. *)
Definition finish {A : Type} (reverse : bool) (c : outcome (list A))
  : outcome (option (list A)) :=
  except_DoesNotExist
    (lineage_list <- c ;;
     Returned (Some (if reverse then rev lineage_list else lineage_list)))
    (Returned None).

(** The first [k] rows of the parent chain of [taxid]. *)
Fixpoint chain (db : table) (taxid : Z) (k : nat) : list Taxa :=
  match k with
  | O => []
  | S k' =>
      match find (ncbi_taxid_eq taxid) db with
      | Some r => r :: chain db (parent_taxid r) k'
      | None => []
      end
  end.

(** A row that its own taxid retrieves. *)
Definition keyed (db : table) (r : Taxa) : Prop :=
  find (ncbi_taxid_eq (ncbi_taxid r)) db = Some r.

(** ** The store of the spec's concrete scenario *)

Definition scenario : table :=
  [ mkTaxa 1 "root" 1; mkTaxa 2 "Eukaryota" 1; mkTaxa 3 "Homo sapiens" 2 ].

(** ** A store and a scoring for the fuzzy search examples *)

(** A similarity for examples: 1 on equal names, 1/2 on names that start
    with the same letter, 0 otherwise; the operator passes a positive
    score. *)
Definition toy_similarity (a b : string) : Q :=
  if String.eqb a b then 1%Q
  else match a, b with
       | String c _, String d _ => if Ascii.eqb c d then (1 # 2)%Q else 0%Q
       | _, _ => 0%Q
       end.

Definition toy_similar (a b : string) : bool :=
  negb (Qle_bool (toy_similarity a b) 0%Q).

Definition toy_levenshtein (a b : string) : Z := 0.

Definition homo_store : table :=
  [ mkTaxa 9598 "Pan troglodytes" 9596;
    mkTaxa 9605 "Homo" 207598;
    mkTaxa 9606 "Homo sapiens" 9605 ].

(** The four ways a walk can stand at its first row. *)
Inductive walk_case (fuel : nat) (db : table) (taxid : Z) : Prop :=
| walk_case_missing :
    find (ncbi_taxid_eq taxid) db = None ->
    walk_from fuel db taxid = Raised DoesNotExist ->
    walk_case fuel db taxid
| walk_case_root r :
    find (ncbi_taxid_eq taxid) db = Some r ->
    String.eqb (tax_name r) "root" = true ->
    walk_from fuel db taxid = Returned [] ->
    walk_case fuel db taxid
| walk_case_stuck r :
    find (ncbi_taxid_eq taxid) db = Some r ->
    String.eqb (tax_name r) "root" = false ->
    fuel = 0%nat ->
    walk_from fuel db taxid = Diverged ->
    walk_case fuel db taxid
| walk_case_step r fuel' :
    find (ncbi_taxid_eq taxid) db = Some r ->
    String.eqb (tax_name r) "root" = false ->
    fuel = S fuel' ->
    walk_from fuel db taxid
    = outcome_map (cons r) (walk_from fuel' db (parent_taxid r)) ->
    walk_case fuel db taxid.

(** A store whose parent pointers form a cycle that passes no root. *)
Definition cycle_store : table :=
  [ mkTaxa 1 "root" 1; mkTaxa 10 "Felis" 11; mkTaxa 11 "Felidae" 12;
    mkTaxa 12 "Carnivora" 10 ].

(** * Proofs *)

(** ** Point queries *)

Lemma find_ncbi_taxid db taxid r :
  find (ncbi_taxid_eq taxid) db = Some r -> In r db /\ ncbi_taxid r = taxid.
Proof.
  intros H. apply find_some in H. destruct H as [Hin Heq].
  split; [assumption|]. unfold ncbi_taxid_eq in Heq. now apply Z.eqb_eq.
Qed.

Lemma find_tax_name db name r :
  find (tax_name_eq name) db = Some r -> In r db /\ tax_name r = name.
Proof.
  intros H. apply find_some in H. destruct H as [Hin Heq].
  split; [assumption|]. unfold tax_name_eq in Heq. now apply String.eqb_eq.
Qed.

Lemma find_keyed db taxid r :
  find (ncbi_taxid_eq taxid) db = Some r -> keyed db r.
Proof.
  intros H. unfold keyed.
  destruct (find_ncbi_taxid _ _ _ H) as [_ ->]. exact H.
Qed.

Lemma find_absent db taxid :
  ~ present db taxid -> find (ncbi_taxid_eq taxid) db = None.
Proof.
  intros Hno. destruct (find (ncbi_taxid_eq taxid) db) as [r|] eqn:E; [|reflexivity].
  exfalso. apply Hno. exists r. now apply find_ncbi_taxid.
Qed.

Lemma find_present db taxid :
  present db taxid -> exists r, find (ncbi_taxid_eq taxid) db = Some r.
Proof.
  intros [r [Hin Hk]].
  destruct (find (ncbi_taxid_eq taxid) db) as [r'|] eqn:E; [now exists r'|].
  exfalso. apply (find_none _ _ E) in Hin.
  unfold ncbi_taxid_eq in Hin. apply Z.eqb_neq in Hin. contradiction.
Qed.

Lemma find_name_absent db name :
  ~ name_present db name -> find (tax_name_eq name) db = None.
Proof.
  intros Hno. destruct (find (tax_name_eq name) db) as [r|] eqn:E; [|reflexivity].
  exfalso. apply Hno. exists r. now apply find_tax_name.
Qed.

(** Under the primary key every stored row is the one its taxid retrieves. *)
Lemma primary_key_keyed db r :
  primary_key db -> In r db -> keyed db r.
Proof.
  unfold primary_key, keyed. induction db as [|a db IH]; intros Hnd Hin.
  - destruct Hin.
  - simpl in Hnd. inversion Hnd as [|? ? Hnotin Hnd']; subst.
    simpl. unfold ncbi_taxid_eq at 1.
    destruct (Z.eqb_spec (ncbi_taxid a) (ncbi_taxid r)) as [Heq|Hne].
    + destruct Hin as [->|Hin]; [reflexivity|].
      exfalso. apply Hnotin. rewrite Heq. now apply in_map.
    + destruct Hin as [->|Hin]; [congruence|]. now apply IH.
Qed.

(** With unique names every stored row is the one its name retrieves. *)
Lemma unique_names_find db r :
  unique_names db -> In r db -> find (tax_name_eq (tax_name r)) db = Some r.
Proof.
  unfold unique_names. induction db as [|a db IH]; intros Hnd Hin.
  - destruct Hin.
  - simpl in Hnd. inversion Hnd as [|? ? Hnotin Hnd']; subst.
    simpl. unfold tax_name_eq at 1.
    destruct (String.eqb_spec (tax_name a) (tax_name r)) as [Heq|Hne].
    + destruct Hin as [->|Hin]; [reflexivity|].
      exfalso. apply Hnotin. rewrite Heq. now apply in_map.
    + destruct Hin as [->|Hin]; [congruence|]. now apply IH.
Qed.


(** ** The loops as projections of one walk *)

Lemma outcome_map_bind {A B C : Type} (f : B -> C) (c : outcome A) (k : A -> outcome B) :
  outcome_map f (bind c k) = bind c (fun a => outcome_map f (k a)).
Proof. destruct c; reflexivity. Qed.

Lemma lineage_id_while_walk fuel db visited r :
  lineage_id_while fuel db (map ncbi_taxid visited)
    (tax_name r) (ncbi_taxid r) (parent_taxid r)
  = outcome_map (map ncbi_taxid) (walk fuel db visited r).
Proof.
  revert visited r. induction fuel as [|fuel IH]; intros visited r; simpl.
  - destruct (String.eqb (tax_name r) "root"); reflexivity.
  - destruct (String.eqb (tax_name r) "root"); [reflexivity|].
    rewrite outcome_map_bind.
    destruct (Taxa_get (ncbi_taxid_eq (parent_taxid r)) db) as [q| |]; simpl;
      try reflexivity.
    rewrite <- IH. now rewrite map_app.
Qed.

Lemma lineage_name_while_walk fuel db visited r :
  lineage_name_while fuel db (map tax_name visited) (tax_name r) (parent_taxid r)
  = outcome_map (map tax_name) (walk fuel db visited r).
Proof.
  revert visited r. induction fuel as [|fuel IH]; intros visited r; simpl.
  - destruct (String.eqb (tax_name r) "root"); reflexivity.
  - destruct (String.eqb (tax_name r) "root"); [reflexivity|].
    rewrite outcome_map_bind.
    destruct (Taxa_get (ncbi_taxid_eq (parent_taxid r)) db) as [q| |]; simpl;
      try reflexivity.
    rewrite <- IH. now rewrite map_app.
Qed.

Lemma lineage_id_walk fuel db taxid reverse :
  lineage_id fuel db taxid reverse
  = finish reverse (outcome_map (map ncbi_taxid) (walk_from fuel db taxid)).
Proof.
  unfold lineage_id, walk_from, finish, Taxa_get.
  destruct (find (ncbi_taxid_eq taxid) db) as [r|]; simpl; [|reflexivity].
  now rewrite <- (lineage_id_while_walk fuel db [] r).
Qed.

Lemma lineage_name_walk fuel db taxid reverse :
  lineage_name fuel db taxid reverse
  = finish reverse (outcome_map (map tax_name) (walk_from fuel db taxid)).
Proof.
  unfold lineage_name, walk_from, finish, Taxa_get.
  destruct (find (ncbi_taxid_eq taxid) db) as [r|]; simpl; [|reflexivity].
  now rewrite <- (lineage_name_while_walk fuel db [] r).
Qed.

(** ** The walk along the parent chain *)

Lemma walk_visited fuel db visited r :
  walk fuel db visited r = outcome_map (app visited) (walk fuel db [] r).
Proof.
  revert visited r. induction fuel as [|fuel IH]; intros visited r; simpl.
  - destruct (String.eqb (tax_name r) "root"); simpl; [|reflexivity].
    now rewrite app_nil_r.
  - destruct (String.eqb (tax_name r) "root"); simpl.
    + now rewrite app_nil_r.
    + destruct (Taxa_get (ncbi_taxid_eq (parent_taxid r)) db) as [q| |]; simpl;
        try reflexivity.
      rewrite (IH (visited ++ [r])), (IH [r]).
      destruct (walk fuel db [] q); simpl; try reflexivity.
      now rewrite <- app_assoc.
Qed.

(** One iteration: from a row that is not the root the walk records the
    row and goes on from its parent. *)
Lemma walk_from_step fuel db taxid r :
  find (ncbi_taxid_eq taxid) db = Some r ->
  String.eqb (tax_name r) "root" = false ->
  walk_from (S fuel) db taxid
  = outcome_map (cons r) (walk_from fuel db (parent_taxid r)).
Proof.
  intros Hf Hn. unfold walk_from, Taxa_get. rewrite Hf. simpl. rewrite Hn.
  unfold Taxa_get.
  destruct (find (ncbi_taxid_eq (parent_taxid r)) db) as [q|]; simpl; [|reflexivity].
  now rewrite walk_visited.
Qed.

Lemma walk_from_root fuel db taxid r :
  find (ncbi_taxid_eq taxid) db = Some r ->
  String.eqb (tax_name r) "root" = true ->
  walk_from fuel db taxid = Returned [].
Proof.
  intros Hf Hn. unfold walk_from, Taxa_get. rewrite Hf. simpl.
  destruct fuel; simpl; now rewrite Hn.
Qed.

Lemma walk_from_missing fuel db taxid :
  find (ncbi_taxid_eq taxid) db = None ->
  walk_from fuel db taxid = Raised DoesNotExist.
Proof. intros Hf. unfold walk_from, Taxa_get. now rewrite Hf. Qed.

Lemma ancestor_S db taxid k :
  ancestor db taxid (S k)
  = match find (ncbi_taxid_eq taxid) db with
    | Some r => ancestor db (parent_taxid r) k
    | None => None
    end.
Proof.
  induction k as [|k IH].
  - simpl. destruct (find (ncbi_taxid_eq taxid) db); reflexivity.
  - change (ancestor db taxid (S (S k)))
      with (match ancestor db taxid (S k) with
            | Some r => find (ncbi_taxid_eq (parent_taxid r)) db
            | None => None
            end).
    rewrite IH. destruct (find (ncbi_taxid_eq taxid) db); reflexivity.
Qed.

Lemma forallb_seq_S (f : nat -> bool) start len :
  forallb f (seq (S start) len) = forallb (fun i => f (S i)) (seq start len).
Proof.
  revert start. induction len as [|len IH]; intros start; simpl; [reflexivity|].
  now rewrite IH.
Qed.

Lemma forallb_pointwise {A : Type} (f g : A -> bool) l :
  (forall a, f a = g a) -> forallb f l = forallb g l.
Proof.
  intros H. induction l as [|a l IH]; simpl; [reflexivity|]. now rewrite H, IH.
Qed.

Lemma inner_chain_S db taxid k :
  inner_chain db taxid (S k)
  = match find (ncbi_taxid_eq taxid) db with
    | Some r => negb (String.eqb (tax_name r) "root")
                && inner_chain db (parent_taxid r) k
    | None => false
    end.
Proof.
  unfold inner_chain. change (seq 0 (S k)) with (0%nat :: seq 1 k).
  cbn [forallb]. rewrite forallb_seq_S.
  change (ancestor db taxid 0) with (find (ncbi_taxid_eq taxid) db).
  destruct (find (ncbi_taxid_eq taxid) db) as [r|] eqn:E; cbn [is_inner andb];
    [|reflexivity].
  f_equal. apply forallb_pointwise. intros i.
  now rewrite ancestor_S, E.
Qed.

Lemma walk_from_stuck db taxid r :
  find (ncbi_taxid_eq taxid) db = Some r ->
  String.eqb (tax_name r) "root" = false ->
  walk_from 0 db taxid = Diverged.
Proof.
  intros Hf Hn. unfold walk_from, Taxa_get. rewrite Hf. simpl. now rewrite Hn.
Qed.

(** A chain that reaches the root in [k] hops: [k] iterations return it. *)
Lemma walk_from_reaches db k :
  forall taxid fuel,
    reaches_root_in db taxid k = true -> (k <= fuel)%nat ->
    walk_from fuel db taxid = Returned (chain db taxid k).
Proof.
  unfold reaches_root_in. induction k as [|k IH]; intros taxid fuel H Hle.
  - apply andb_prop in H. destruct H as [_ H]. simpl in H.
    destruct (find (ncbi_taxid_eq taxid) db) as [r|] eqn:E; [|discriminate].
    now apply (walk_from_root fuel db taxid r).
  - rewrite inner_chain_S, ancestor_S in H. simpl chain.
    destruct (find (ncbi_taxid_eq taxid) db) as [r|] eqn:E; [|discriminate].
    destruct (String.eqb (tax_name r) "root") eqn:En; [discriminate|].
    simpl in H. destruct fuel as [|fuel]; [lia|].
    rewrite (walk_from_step fuel db taxid r E En).
    rewrite (IH (parent_taxid r) fuel H); [reflexivity|lia].
Qed.

(** A chain that breaks after [k] hops: [k] iterations raise
    [Taxa.DoesNotExist]. *)
Lemma walk_from_dangles db k :
  forall taxid fuel,
    dangles_at db taxid k = true -> (k <= fuel)%nat ->
    walk_from fuel db taxid = Raised DoesNotExist.
Proof.
  unfold dangles_at. induction k as [|k IH]; intros taxid fuel H Hle.
  - apply andb_prop in H. destruct H as [_ H]. simpl in H.
    destruct (find (ncbi_taxid_eq taxid) db) as [r|] eqn:E; [discriminate|].
    now apply walk_from_missing.
  - rewrite inner_chain_S, ancestor_S in H.
    destruct (find (ncbi_taxid_eq taxid) db) as [r|] eqn:E; [|discriminate].
    destruct (String.eqb (tax_name r) "root") eqn:En; [discriminate|].
    simpl in H. destruct fuel as [|fuel]; [lia|].
    rewrite (walk_from_step fuel db taxid r E En).
    rewrite (IH (parent_taxid r) fuel H); [reflexivity|lia].
Qed.

(** The only exception a walk raises is [Taxa.DoesNotExist]. *)
Lemma walk_from_raises fuel db :
  forall taxid e, walk_from fuel db taxid = Raised e -> e = DoesNotExist.
Proof.
  induction fuel as [|fuel IH]; intros taxid e H.
  - destruct (find (ncbi_taxid_eq taxid) db) as [r|] eqn:E.
    + destruct (String.eqb (tax_name r) "root") eqn:En.
      * rewrite (walk_from_root _ _ _ _ E En) in H. discriminate.
      * rewrite (walk_from_stuck _ _ _ E En) in H. discriminate.
    + rewrite (walk_from_missing _ _ _ E) in H. congruence.
  - destruct (find (ncbi_taxid_eq taxid) db) as [r|] eqn:E.
    + destruct (String.eqb (tax_name r) "root") eqn:En.
      * rewrite (walk_from_root _ _ _ _ E En) in H. discriminate.
      * rewrite (walk_from_step _ _ _ _ E En) in H.
        destruct (walk_from fuel db (parent_taxid r)) as [l|e'|] eqn:W;
          simpl in H; try discriminate.
        inversion H; subst. now apply (IH (parent_taxid r)).
    + rewrite (walk_from_missing _ _ _ E) in H. congruence.
Qed.

(** Every row a walk returns is the row its taxid retrieves, and none of
    them is named "root". *)
Lemma walk_from_rows fuel db :
  forall taxid rows,
    walk_from fuel db taxid = Returned rows ->
    Forall (fun r => keyed db r /\ tax_name r <> "root") rows.
Proof.
  induction fuel as [|fuel IH]; intros taxid rows H;
    destruct (find (ncbi_taxid_eq taxid) db) as [r|] eqn:E;
    try (rewrite (walk_from_missing _ _ _ E) in H; discriminate);
    destruct (String.eqb (tax_name r) "root") eqn:En;
    try (rewrite (walk_from_root _ _ _ _ E En) in H; inversion H; constructor).
  - rewrite (walk_from_stuck _ _ _ E En) in H. discriminate.
  - rewrite (walk_from_step _ _ _ _ E En) in H.
    destruct (walk_from fuel db (parent_taxid r)) as [l|e'|] eqn:W;
      simpl in H; try discriminate.
    inversion H; subst. constructor.
    + split; [now apply (find_keyed db taxid)|].
      now apply String.eqb_neq.
    + now apply (IH (parent_taxid r)).
Qed.

Lemma chain_length db k :
  forall taxid, inner_chain db taxid k = true -> List.length (chain db taxid k) = k.
Proof.
  induction k as [|k IH]; intros taxid H; [reflexivity|].
  rewrite inner_chain_S in H. simpl.
  destruct (find (ncbi_taxid_eq taxid) db) as [r|]; [|discriminate].
  apply andb_prop in H. destruct H as [_ H]. simpl. now rewrite IH.
Qed.

Lemma chain_nth db k :
  forall taxid i, inner_chain db taxid k = true -> (i < k)%nat ->
    nth_error (chain db taxid k) i = ancestor db taxid i.
Proof.
  induction k as [|k IH]; intros taxid i H Hlt; [lia|].
  rewrite inner_chain_S in H. simpl chain.
  destruct (find (ncbi_taxid_eq taxid) db) as [r|] eqn:E; [|discriminate].
  apply andb_prop in H. destruct H as [_ H].
  destruct i as [|i].
  - simpl. now rewrite E.
  - rewrite ancestor_S, E. simpl. apply IH; [assumption|lia].
Qed.

Lemma stored_names_keyed db rows :
  Forall (keyed db) rows ->
  stored_names db (map ncbi_taxid rows) = Some (map tax_name rows).
Proof.
  induction 1 as [|r rows Hk _ IH]; simpl; [reflexivity|].
  unfold keyed in Hk. now rewrite Hk, IH.
Qed.

(** ** The lineage operations on a chain *)

Lemma lineage_id_reaches db taxid k fuel reverse :
  reaches_root_in db taxid k = true -> (k <= fuel)%nat ->
  lineage_id fuel db taxid reverse
  = Returned (Some (if reverse then rev (map ncbi_taxid (chain db taxid k))
                    else map ncbi_taxid (chain db taxid k))).
Proof.
  intros H Hle. now rewrite lineage_id_walk, (walk_from_reaches db k taxid fuel H Hle).
Qed.

Lemma lineage_name_reaches db taxid k fuel reverse :
  reaches_root_in db taxid k = true -> (k <= fuel)%nat ->
  lineage_name fuel db taxid reverse
  = Returned (Some (if reverse then rev (map tax_name (chain db taxid k))
                    else map tax_name (chain db taxid k))).
Proof.
  intros H Hle. now rewrite lineage_name_walk, (walk_from_reaches db k taxid fuel H Hle).
Qed.

Lemma lineage_id_dangles db taxid k fuel reverse :
  dangles_at db taxid k = true -> (k <= fuel)%nat ->
  lineage_id fuel db taxid reverse = Returned None.
Proof.
  intros H Hle. now rewrite lineage_id_walk, (walk_from_dangles db k taxid fuel H Hle).
Qed.

Lemma lineage_name_dangles db taxid k fuel reverse :
  dangles_at db taxid k = true -> (k <= fuel)%nat ->
  lineage_name fuel db taxid reverse = Returned None.
Proof.
  intros H Hle. now rewrite lineage_name_walk, (walk_from_dangles db k taxid fuel H Hle).
Qed.

Lemma finish_not_raised {A B : Type} reverse (f : list A -> list B) (c : outcome (list A)) :
  (forall e, c = Raised e -> e = DoesNotExist) ->
  forall e, finish reverse (outcome_map f c) <> Raised e.
Proof.
  intros Hc e. destruct c as [l|e'|]; simpl; try discriminate.
  rewrite (Hc e' eq_refl). simpl. discriminate.
Qed.

Lemma lineage_id_not_raised fuel db taxid reverse e :
  lineage_id fuel db taxid reverse <> Raised e.
Proof.
  rewrite lineage_id_walk. apply finish_not_raised. apply walk_from_raises.
Qed.

Lemma lineage_name_not_raised fuel db taxid reverse e :
  lineage_name fuel db taxid reverse <> Raised e.
Proof.
  rewrite lineage_name_walk. apply finish_not_raised. apply walk_from_raises.
Qed.

(** ** The scenario of the spec *)

Example scenario_lineage_id :
  lineage_id 2 scenario 3 false = Returned (Some [3; 2]).
Proof. reflexivity. Qed.

Example scenario_lineage_id_short :
  lineage_id 1 scenario 3 false = Diverged.
Proof. reflexivity. Qed.

Example scenario_reaches : reaches_root_in scenario 3 2 = true.
Proof. reflexivity. Qed.

(** C1, as the spec states it, does not hold: for no number of loop
    iterations does [lineage_id(3)] on the scenario's store return [[2]],
    so the five equalities of the scenario never hold together. *)
Lemma C1_scenario_as_stated_fails :
  ~ (exists fuel,
       lineage_id fuel scenario 3 false = Returned (Some [2]) /\
       lineage_id fuel scenario 3 true = Returned (Some [2]) /\
       lineage_name fuel scenario 3 false = Returned (Some ["Eukaryota"]) /\
       sci_name scenario 1 = Returned (Some "root") /\
       tax_id scenario "Pan troglodytes" = Returned None).
Proof.
  intros [fuel [H _]].
  destruct fuel as [|[|fuel]]; try (vm_compute in H; discriminate).
  rewrite (lineage_id_reaches scenario 3 2) in H; [|reflexivity|lia].
  vm_compute in H. discriminate.
Qed.

(** C1 (amended): on the store {(1,"root",1), (2,"Eukaryota",1),
    (3,"Homo sapiens",2)} the lineage of 3 starts with 3 itself:
    lineage_id(3) is [3; 2], lineage_id(3, reverse=True) is [2; 3],
    lineage_name(3) is ["Homo sapiens"; "Eukaryota"]; sci_name(1) is "root"
    and tax_id("Pan troglodytes") is None.  The lineage results are those
    of every run that is given the two loop iterations the walk needs. *)
Theorem C1_scenario (fuel : nat) :
  lineage_id (2 + fuel) scenario 3 false = Returned (Some [3; 2]) /\
  lineage_id (2 + fuel) scenario 3 true = Returned (Some [2; 3]) /\
  lineage_name (2 + fuel) scenario 3 false
    = Returned (Some ["Homo sapiens"; "Eukaryota"]) /\
  sci_name scenario 1 = Returned (Some "root") /\
  tax_id scenario "Pan troglodytes" = Returned None.
Proof.
  assert (Hle : (2 <= 2 + fuel)%nat) by lia.
  rewrite !(lineage_id_reaches scenario 3 2 _ _ scenario_reaches Hle).
  rewrite (lineage_name_reaches scenario 3 2 _ _ scenario_reaches Hle).
  repeat split; reflexivity.
Qed.

(** ** Length and content of a lineage *)

Lemma keyed_inj db r r' :
  keyed db r -> keyed db r' -> ncbi_taxid r = ncbi_taxid r' -> r = r'.
Proof. unfold keyed. intros H H' E. rewrite E in H. congruence. Qed.

Lemma ancestor_keyed db taxid k r :
  ancestor db taxid k = Some r -> keyed db r.
Proof.
  destruct k as [|k]; simpl.
  - apply find_keyed.
  - destruct (ancestor db taxid k); [apply find_keyed|discriminate].
Qed.

(** C2: when the parent chain of [taxid] reaches the root in exactly [k]
    hops, [lineage_id(taxid)] (given the [k] loop iterations it needs)
    returns a list of length [k]; its [i]-th element is the taxid of the row
    [i] hops up, so the walk records every row visited before the one named
    "root"; and the taxid of the root row -- the row reached at hop [k], and
    any row named "root" that its own taxid retrieves -- is not in the
    list. *)
Theorem C2_lineage_id_hops db taxid k fuel :
  reaches_root_in db taxid k = true -> (k <= fuel)%nat ->
  exists lineage_list,
    lineage_id fuel db taxid false = Returned (Some lineage_list) /\
    List.length lineage_list = k /\
    (forall i, (i < k)%nat ->
       nth_error lineage_list i = option_map ncbi_taxid (ancestor db taxid i)) /\
    (exists root, ancestor db taxid k = Some root /\ tax_name root = "root" /\
       ~ In (ncbi_taxid root) lineage_list) /\
    (forall root, keyed db root -> tax_name root = "root" ->
       ~ In (ncbi_taxid root) lineage_list).
Proof.
  intros H Hle.
  assert (Hin : inner_chain db taxid k = true).
  { unfold reaches_root_in in H. now apply andb_prop in H. }
  assert (Hroots : forall root, keyed db root -> tax_name root = "root" ->
            ~ In (ncbi_taxid root) (map ncbi_taxid (chain db taxid k))).
  { intros root Hk Hn Hi. apply in_map_iff in Hi. destruct Hi as [r [Hid Hr]].
    pose proof (walk_from_rows fuel db taxid _
                  (walk_from_reaches db k taxid fuel H Hle)) as Hrows.
    rewrite Forall_forall in Hrows. destruct (Hrows r Hr) as [Hkr Hnr].
    apply Hnr. rewrite (keyed_inj db r root Hkr Hk Hid). exact Hn. }
  exists (map ncbi_taxid (chain db taxid k)). repeat split.
  - now rewrite (lineage_id_reaches db taxid k fuel false H Hle).
  - rewrite length_map. now apply chain_length.
  - intros i Hlt. rewrite nth_error_map. now rewrite chain_nth.
  - unfold reaches_root_in in H. apply andb_prop in H. destruct H as [_ H].
    destruct (ancestor db taxid k) as [root|] eqn:E; [|discriminate].
    simpl in H. apply String.eqb_eq in H. exists root. repeat split; try assumption.
    apply Hroots; [|assumption]. now apply (ancestor_keyed db taxid k).
  - exact Hroots.
Qed.

Lemma C2_lineage_id_hops_witness :
  exists lineage_list,
    lineage_id 2 scenario 3 false = Returned (Some lineage_list) /\
    List.length lineage_list = 2%nat /\
    (forall i, (i < 2)%nat ->
       nth_error lineage_list i = option_map ncbi_taxid (ancestor scenario 3 i)) /\
    (exists root, ancestor scenario 3 2 = Some root /\ tax_name root = "root" /\
       ~ In (ncbi_taxid root) lineage_list) /\
    (forall root, keyed scenario root -> tax_name root = "root" ->
       ~ In (ncbi_taxid root) lineage_list).
Proof.
  apply (C2_lineage_id_hops scenario 3 2 2); [reflexivity | lia].
Defined.

(** ** Reversal *)

(** C3: for every taxid, [lineage_id(taxid, reverse=True)] is
    [lineage_id(taxid, reverse=False)] with the returned list reversed (and
    [None], or an unfinished walk, where that one is); the same holds for
    [lineage_name]. *)
Theorem C3_lineage_reverse fuel db taxid :
  lineage_id fuel db taxid true
  = outcome_map (option_map (@rev Z)) (lineage_id fuel db taxid false) /\
  lineage_name fuel db taxid true
  = outcome_map (option_map (@rev string)) (lineage_name fuel db taxid false).
Proof.
  rewrite !lineage_id_walk, !lineage_name_walk. unfold finish.
  destruct (walk_from fuel db taxid) as [rows|[|]|]; simpl; split; reflexivity.
Qed.

(** ** The root itself *)

(** C4: on the taxid of the row named "root" (the row that taxid
    retrieves, the taxid column being the primary key) [lineage_id] returns
    the empty list, for both values of [reverse] and whatever the number of
    iterations allowed. *)
Theorem C4_lineage_id_root db root fuel reverse :
  primary_key db -> In root db -> tax_name root = "root" ->
  lineage_id fuel db (ncbi_taxid root) reverse = Returned (Some []).
Proof.
  intros Hpk Hin Hn. rewrite lineage_id_walk.
  rewrite (walk_from_root fuel db (ncbi_taxid root) root).
  - destruct reverse; reflexivity.
  - now apply primary_key_keyed.
  - rewrite Hn. reflexivity.
Qed.

Lemma scenario_primary_key : primary_key scenario.
Proof.
  unfold primary_key. simpl.
  repeat constructor; simpl; intuition discriminate.
Qed.

Lemma scenario_unique_names : unique_names scenario.
Proof.
  unfold unique_names. simpl.
  repeat constructor; simpl; intuition discriminate.
Qed.

Lemma C4_lineage_id_root_witness :
  lineage_id 0 scenario 1 false = Returned (Some []) /\
  lineage_id 0 scenario 1 true = Returned (Some []).
Proof.
  split.
  - apply (C4_lineage_id_root scenario (mkTaxa 1 "root" 1) 0 false);
      [exact scenario_primary_key | simpl; auto | reflexivity].
  - apply (C4_lineage_id_root scenario (mkTaxa 1 "root" 1) 0 true);
      [exact scenario_primary_key | simpl; auto | reflexivity].
Defined.

(** ** Round trip of the point lookups *)

(** C5: for every taxid present in the store, if no two rows share a
    name, [sci_name] returns a name and [tax_id] of that name returns the
    taxid. *)
Theorem C5_tax_id_of_sci_name db taxid :
  present db taxid -> unique_names db ->
  exists name,
    sci_name db taxid = Returned (Some name) /\
    tax_id db name = Returned (Some taxid).
Proof.
  intros Hp Hu. destruct (find_present db taxid Hp) as [r Hf].
  destruct (find_ncbi_taxid db taxid r Hf) as [Hin Hk].
  exists (tax_name r). split.
  - unfold sci_name, Taxa_get. now rewrite Hf.
  - unfold tax_id, Taxa_get. rewrite (unique_names_find db r Hu Hin). simpl.
    now rewrite Hk.
Qed.

Lemma C5_tax_id_of_sci_name_witness :
  exists name,
    sci_name scenario 3 = Returned (Some name) /\
    tax_id scenario name = Returned (Some 3).
Proof.
  apply (C5_tax_id_of_sci_name scenario 3).
  - exists (mkTaxa 3 "Homo sapiens" 2). simpl. auto.
  - exact scenario_unique_names.
Defined.

(** ** Absent keys *)

Lemma sci_name_absent db taxid :
  ~ present db taxid -> sci_name db taxid = Returned None.
Proof.
  intros H. unfold sci_name, Taxa_get. now rewrite (find_absent db taxid H).
Qed.

Lemma tax_id_absent db name :
  ~ name_present db name -> tax_id db name = Returned None.
Proof.
  intros H. unfold tax_id, Taxa_get. now rewrite (find_name_absent db name H).
Qed.

Lemma sci_name_not_raised db taxid e : sci_name db taxid <> Raised e.
Proof.
  unfold sci_name, Taxa_get.
  destruct (find (ncbi_taxid_eq taxid) db); simpl; discriminate.
Qed.

Lemma tax_id_not_raised db name e : tax_id db name <> Raised e.
Proof.
  unfold tax_id, Taxa_get.
  destruct (find (tax_name_eq name) db); simpl; discriminate.
Qed.

Lemma scenario_absent_taxid : ~ present scenario 7.
Proof.
  intros [r [Hin Hk]]. simpl in Hin.
  destruct Hin as [<-|[<-|[<-|[]]]]; discriminate.
Qed.

Lemma scenario_absent_name : ~ name_present scenario "Pan troglodytes".
Proof.
  intros [r [Hin Hk]]. simpl in Hin.
  destruct Hin as [<-|[<-|[<-|[]]]]; discriminate.
Qed.

(** C6: [sci_name] returns [None] for every taxid absent from the store
    and [tax_id] returns [None] for every name absent from it; neither of
    them raises an exception, on any argument. *)
Theorem C6_point_lookups_absent db :
  (forall taxid, ~ present db taxid -> sci_name db taxid = Returned None) /\
  (forall name, ~ name_present db name -> tax_id db name = Returned None) /\
  (forall taxid e, sci_name db taxid <> Raised e) /\
  (forall name e, tax_id db name <> Raised e).
Proof.
  repeat split.
  - apply sci_name_absent.
  - apply tax_id_absent.
  - apply sci_name_not_raised.
  - apply tax_id_not_raised.
Qed.

Lemma C6_point_lookups_absent_witness :
  sci_name scenario 7 = Returned None /\
  tax_id scenario "Pan troglodytes" = Returned None.
Proof.
  destruct (C6_point_lookups_absent scenario) as [Hs [Ht _]]. split.
  - apply Hs. exact scenario_absent_taxid.
  - apply Ht. exact scenario_absent_name.
Defined.

(** ** Termination on a well-formed store *)

(** C9: if the parent chain of every row not named "root" reaches a row
    named "root" in finitely many hops, then for every taxid present in the
    store there is a number of iterations after which the loops of
    [lineage_id] and [lineage_name] have finished: with that many or more,
    both return a list. *)
Theorem C9_lineage_terminates db taxid reverse :
  (forall r, In r db -> tax_name r <> "root" ->
     exists k, reaches_root_in db (ncbi_taxid r) k = true) ->
  present db taxid ->
  exists k ids names,
    forall fuel, (k <= fuel)%nat ->
      lineage_id fuel db taxid reverse = Returned (Some ids) /\
      lineage_name fuel db taxid reverse = Returned (Some names).
Proof.
  intros Hwf Hp. destruct (find_present db taxid Hp) as [r Hf].
  destruct (find_ncbi_taxid db taxid r Hf) as [Hin Hk].
  assert (Hreach : exists k, reaches_root_in db taxid k = true).
  { destruct (String.eqb (tax_name r) "root") eqn:En.
    - exists 0%nat. unfold reaches_root_in. simpl. now rewrite Hf.
    - rewrite <- Hk. apply Hwf; [assumption|]. now apply String.eqb_neq. }
  destruct Hreach as [k Hreach].
  exists k.
  exists (if reverse then rev (map ncbi_taxid (chain db taxid k))
          else map ncbi_taxid (chain db taxid k)).
  exists (if reverse then rev (map tax_name (chain db taxid k))
          else map tax_name (chain db taxid k)).
  intros fuel Hle. split.
  - now apply lineage_id_reaches.
  - now apply lineage_name_reaches.
Qed.

Lemma scenario_chains_reach_root :
  forall r, In r scenario -> tax_name r <> "root" ->
    exists k, reaches_root_in scenario (ncbi_taxid r) k = true.
Proof.
  intros r Hin Hn. simpl in Hin. destruct Hin as [<-|[<-|[<-|[]]]].
  - now elim Hn.
  - exists 1%nat. reflexivity.
  - exists 2%nat. reflexivity.
Qed.

Lemma C9_lineage_terminates_witness :
  exists k ids names,
    forall fuel, (k <= fuel)%nat ->
      lineage_id fuel scenario 3 false = Returned (Some ids) /\
      lineage_name fuel scenario 3 false = Returned (Some names).
Proof.
  apply (C9_lineage_terminates scenario 3 false).
  - exact scenario_chains_reach_root.
  - exists (mkTaxa 3 "Homo sapiens" 2). simpl. auto.
Defined.

(** Without the precondition the loop need not finish: on a two-row cycle
    no number of iterations makes [lineage_id] return. *)
Example cycle_never_returns fuel :
  lineage_id fuel [mkTaxa 1 "a" 2; mkTaxa 2 "b" 1] 1 false = Diverged.
Proof.
  rewrite lineage_id_walk.
  assert (H : forall n taxid, (taxid = 1 \/ taxid = 2) ->
            walk_from n [mkTaxa 1 "a" 2; mkTaxa 2 "b" 1] taxid = Diverged).
  { induction n as [|n IH]; intros taxid [->| ->]; try reflexivity.
    - rewrite (walk_from_step n _ 1 (mkTaxa 1 "a" 2)); try reflexivity.
      simpl parent_taxid. rewrite IH; [reflexivity|now right].
    - rewrite (walk_from_step n _ 2 (mkTaxa 2 "b" 1)); try reflexivity.
      simpl parent_taxid. rewrite IH; [reflexivity|now left]. }
  rewrite H; [reflexivity|now left].
Qed.

(** ** The two lineage operations agree *)

(** C10: for every taxid and every value of [reverse], whenever
    [lineage_id] returns a list, [lineage_name] returns the list of the
    stored names of its taxids, in the same order; and the two return
    [None] on exactly the same arguments. *)
Theorem C10_lineage_name_of_lineage_id fuel db taxid reverse :
  (forall ids, lineage_id fuel db taxid reverse = Returned (Some ids) ->
     exists names,
       lineage_name fuel db taxid reverse = Returned (Some names) /\
       stored_names db ids = Some names) /\
  (lineage_id fuel db taxid reverse = Returned None <->
   lineage_name fuel db taxid reverse = Returned None).
Proof.
  rewrite lineage_id_walk, lineage_name_walk. unfold finish.
  destruct (walk_from fuel db taxid) as [rows|[|]|] eqn:W; simpl; split;
    try (intros ids H; discriminate); try (split; intros H; (reflexivity || discriminate)).
  intros ids H. inversion H; subst; clear H.
  assert (Hk : Forall (keyed db) rows).
  { pose proof (walk_from_rows fuel db taxid rows W) as Hr.
    rewrite Forall_forall in *. intros r Hr'. now apply Hr. }
  destruct reverse.
  - exists (rev (map tax_name rows)). split; [reflexivity|].
    rewrite <- !map_rev. apply stored_names_keyed. now apply Forall_rev.
  - exists (map tax_name rows). split; [reflexivity|].
    now apply stored_names_keyed.
Qed.

Lemma C10_lineage_name_of_lineage_id_witness :
  exists names,
    lineage_name 2 scenario 3 true = Returned (Some names) /\
    stored_names scenario [2; 3] = Some names.
Proof.
  apply (proj1 (C10_lineage_name_of_lineage_id 2 scenario 3 true) [2; 3]).
  reflexivity.
Defined.

(** ** Fuzzy search: order, cap and the empty result *)

Lemma insert_desc_In x a l :
  In x (insert_desc a l) <-> x = a \/ In x l.
Proof.
  induction l as [|y l IH]; simpl.
  - intuition.
  - destruct (Qle_bool (similarity y) (similarity a)); simpl.
    + intuition.
    + rewrite IH. intuition.
Qed.

Lemma insert_desc_sorted a l :
  StronglySorted similarity_desc l ->
  StronglySorted similarity_desc (insert_desc a l).
Proof.
  induction 1 as [|y l Hs IH Hall]; simpl.
  - constructor; constructor.
  - destruct (Qle_bool (similarity y) (similarity a)) eqn:E.
    + apply Qle_bool_iff in E. constructor.
      * now constructor.
      * constructor; [exact E|].
        rewrite Forall_forall in *. intros z Hz. unfold similarity_desc in *.
        apply Qle_trans with (similarity y); [now apply Hall | exact E].
    + assert (Hlt : Qle (similarity a) (similarity y)).
      { apply Qlt_le_weak, Qnot_le_lt. intros Hle.
        apply Qle_bool_iff in Hle. congruence. }
      constructor; [exact IH|].
      rewrite Forall_forall in *. intros z Hz.
      apply insert_desc_In in Hz. destruct Hz as [->|Hz]; [exact Hlt|].
      now apply Hall.
Qed.

Lemma order_by_similarity_desc_sorted l :
  StronglySorted similarity_desc (order_by_similarity_desc l).
Proof.
  induction l as [|a l IH]; simpl; [constructor|]. now apply insert_desc_sorted.
Qed.

Lemma order_by_similarity_desc_In x l :
  In x (order_by_similarity_desc l) <-> In x l.
Proof.
  induction l as [|a l IH]; simpl; [reflexivity|].
  rewrite insert_desc_In, IH. intuition.
Qed.

Lemma firstn_incl_In {A : Type} (x : A) n l : In x (firstn n l) -> In x l.
Proof.
  revert l. induction n as [|n IH]; intros [|a l]; simpl; try tauto.
  intros [->|H]; [now left|right; now apply IH].
Qed.

Lemma firstn_sorted {A : Type} (R : A -> A -> Prop) n :
  forall l, StronglySorted R l -> StronglySorted R (firstn n l).
Proof.
  induction n as [|n IH]; intros l Hs; simpl; [constructor|].
  destruct Hs as [|a l Hs Hall]; [constructor|].
  constructor; [now apply IH|].
  rewrite Forall_forall in *. intros z Hz. apply Hall.
  now apply (firstn_incl_In z n l).
Qed.

Lemma where_similar_none pg_similar name db :
  (forall r, In r db -> pg_similar (tax_name r) name = false) ->
  where_similar pg_similar name db = [].
Proof.
  intros H. unfold where_similar. induction db as [|a db IH]; simpl; [reflexivity|].
  rewrite (H a); [|now left]. apply IH. intros r Hr. apply H. now right.
Qed.

Lemma tax_id_fuzzy_not_raised pg_similarity pg_levenshtein pg_similar db name limit e :
  tax_id_fuzzy pg_similarity pg_levenshtein pg_similar db name limit <> Raised e.
Proof. unfold tax_id_fuzzy, Taxa_raw. simpl. discriminate. Qed.

(** C8: for every query name and limit, [tax_id_fuzzy] returns a list
    (never [None], never an exception) of at most [limit] rows, 10 when no
    limit is given, in descending order of similarity; every row of it is a
    stored row whose name passes the similarity operator, with its score;
    and when no stored name passes the operator -- in particular on an
    empty store -- the list is empty. *)
Theorem C8_tax_id_fuzzy pg_similarity pg_levenshtein pg_similar db name limit :
  exists rows,
    tax_id_fuzzy pg_similarity pg_levenshtein pg_similar db name limit
    = Returned (Some rows) /\
    (List.length rows <= match limit with Some n => n | None => 10 end)%nat /\
    StronglySorted similarity_desc rows /\
    Forall (fun row =>
              In (taxa row) db /\
              pg_similar (tax_name (taxa row)) name = true /\
              similarity row = pg_similarity (tax_name (taxa row)) name) rows /\
    ((forall r, In r db -> pg_similar (tax_name r) name = false) -> rows = []).
Proof.
  eexists. split; [reflexivity|]. repeat split.
  - apply firstn_le_length.
  - apply firstn_sorted, order_by_similarity_desc_sorted.
  - rewrite Forall_forall. intros row Hrow.
    apply firstn_incl_In, order_by_similarity_desc_In, in_map_iff in Hrow.
    destruct Hrow as [r [<- Hr]]. unfold where_similar in Hr.
    apply filter_In in Hr. destruct Hr as [Hin Hs]. simpl. auto.
  - intros Hnone. rewrite (where_similar_none pg_similar name db Hnone). simpl.
    now rewrite firstn_nil.
Qed.

Example fuzzy_homo_sapiens :
  outcome_map (option_map (map (fun row => ncbi_taxid (taxa row))))
    (tax_id_fuzzy toy_similarity toy_levenshtein toy_similar
       homo_store "Homo sapiens" (Some 3%nat))
  = Returned (Some [9606; 9605]).
Proof. reflexivity. Qed.

Example fuzzy_limit_one :
  outcome_map (option_map (map (fun row => ncbi_taxid (taxa row))))
    (tax_id_fuzzy toy_similarity toy_levenshtein toy_similar
       homo_store "Homo sapiens" (Some 1%nat))
  = Returned (Some [9606]).
Proof. reflexivity. Qed.

Lemma C8_tax_id_fuzzy_witness :
  tax_id_fuzzy toy_similarity toy_levenshtein toy_similar
    homo_store "Gorilla gorilla" None
  = Returned (Some []).
Proof.
  destruct (C8_tax_id_fuzzy toy_similarity toy_levenshtein toy_similar
              homo_store "Gorilla gorilla" None)
    as [rows [Hr [_ [_ [_ Hempty]]]]].
  rewrite Hr, Hempty; [reflexivity|].
  intros r Hin. simpl in Hin. destruct Hin as [<-|[<-|[<-|[]]]]; reflexivity.
Defined.

(** ** Not found is a return value, in every operation *)

Example dangling_parent :
  dangles_at [mkTaxa 3 "Homo sapiens" 2] 3 1 = true.
Proof. reflexivity. Qed.

(** C7: in every operation a point lookup that finds no row ends in the
    return value [None], never in an exception: [sci_name] and [tax_id] on
    an absent key, and [lineage_id] and [lineage_name] when the chain breaks
    after [k] hops -- at the starting taxid ([k = 0]) or at a parent pointer
    met during the walk; and no operation, the fuzzy search included, lets
    an exception reach its caller. *)
Theorem C7_not_found_is_returned db :
  (forall taxid, ~ present db taxid -> sci_name db taxid = Returned None) /\
  (forall name, ~ name_present db name -> tax_id db name = Returned None) /\
  (forall taxid k fuel reverse,
     dangles_at db taxid k = true -> (k <= fuel)%nat ->
     lineage_id fuel db taxid reverse = Returned None /\
     lineage_name fuel db taxid reverse = Returned None) /\
  (forall e,
     (forall taxid, sci_name db taxid <> Raised e) /\
     (forall name, tax_id db name <> Raised e) /\
     (forall fuel taxid reverse, lineage_id fuel db taxid reverse <> Raised e) /\
     (forall fuel taxid reverse, lineage_name fuel db taxid reverse <> Raised e) /\
     (forall pg_similarity pg_levenshtein pg_similar name limit,
        tax_id_fuzzy pg_similarity pg_levenshtein pg_similar db name limit
        <> Raised e)).
Proof.
  split; [apply sci_name_absent|].
  split; [apply tax_id_absent|].
  split.
  - intros taxid k fuel reverse H Hle. split.
    + now apply (lineage_id_dangles db taxid k).
    + now apply (lineage_name_dangles db taxid k).
  - intros e. repeat split; intros.
    + apply sci_name_not_raised.
    + apply tax_id_not_raised.
    + apply lineage_id_not_raised.
    + apply lineage_name_not_raised.
    + apply tax_id_fuzzy_not_raised.
Qed.

Lemma C7_not_found_is_returned_witness :
  lineage_id 1 [mkTaxa 3 "Homo sapiens" 2] 3 false = Returned None /\
  lineage_name 1 [mkTaxa 3 "Homo sapiens" 2] 3 false = Returned None.
Proof.
  destruct (C7_not_found_is_returned [mkTaxa 3 "Homo sapiens" 2])
    as [_ [_ [Hwalk _]]].
  apply (Hwalk 3 1%nat 1%nat false); [reflexivity | lia].
Defined.

(** * Further properties of the operations *)

(** ** What a finished walk says about the parent chain *)

Lemma reaches_root_in_S db taxid k :
  reaches_root_in db taxid (S k)
  = match find (ncbi_taxid_eq taxid) db with
    | Some r => negb (String.eqb (tax_name r) "root")
                && reaches_root_in db (parent_taxid r) k
    | None => false
    end.
Proof.
  unfold reaches_root_in. rewrite inner_chain_S, ancestor_S.
  destruct (find (ncbi_taxid_eq taxid) db) as [r|]; [|reflexivity].
  now rewrite andb_assoc.
Qed.

Lemma dangles_at_S db taxid k :
  dangles_at db taxid (S k)
  = match find (ncbi_taxid_eq taxid) db with
    | Some r => negb (String.eqb (tax_name r) "root")
                && dangles_at db (parent_taxid r) k
    | None => false
    end.
Proof.
  unfold dangles_at. rewrite inner_chain_S, ancestor_S.
  destruct (find (ncbi_taxid_eq taxid) db) as [r|]; [|reflexivity].
  now rewrite andb_assoc.
Qed.

Lemma walk_cases fuel db taxid : walk_case fuel db taxid.
Proof.
  destruct (find (ncbi_taxid_eq taxid) db) as [r|] eqn:E.
  - destruct (String.eqb (tax_name r) "root") eqn:En.
    + apply (walk_case_root _ _ _ r E En). now apply (walk_from_root _ _ _ r).
    + destruct fuel as [|fuel'].
      * apply (walk_case_stuck _ _ _ r E En eq_refl).
        now apply (walk_from_stuck _ _ r).
      * apply (walk_case_step _ _ _ r fuel' E En eq_refl).
        now apply walk_from_step.
  - apply (walk_case_missing _ _ _ E). now apply walk_from_missing.
Qed.

Lemma walk_from_returned_inv fuel db :
  forall taxid rows,
    walk_from fuel db taxid = Returned rows ->
    reaches_root_in db taxid (List.length rows) = true /\
    (List.length rows <= fuel)%nat /\
    rows = chain db taxid (List.length rows).
Proof.
  induction fuel as [|fuel IH]; intros taxid rows H;
    [destruct (walk_cases 0 db taxid) as [E W|r E En W|r E En Hf W|r f E En Hf W]
    |destruct (walk_cases (S fuel) db taxid)
       as [E W|r E En W|r E En Hf W|r f E En Hf W]];
    rewrite W in H; try discriminate; try (inversion Hf; subst f).
  - inversion H; subst. simpl. unfold reaches_root_in. simpl. rewrite E. simpl.
    repeat split; [assumption|lia].
  - inversion H; subst. simpl. unfold reaches_root_in. simpl. rewrite E. simpl.
    repeat split; [assumption|lia].
  - destruct (walk_from fuel db (parent_taxid r)) as [l| |] eqn:Wp;
      simpl in H; try discriminate.
    inversion H; subst. destruct (IH _ _ Wp) as [Hr [Hl Hc]].
    simpl List.length. rewrite reaches_root_in_S, E, En. simpl chain. rewrite E.
    repeat split; [exact Hr | lia | now rewrite <- Hc].
Qed.

Lemma walk_from_raised_inv fuel db :
  forall taxid e,
    walk_from fuel db taxid = Raised e ->
    exists k, (k <= fuel)%nat /\ dangles_at db taxid k = true.
Proof.
  induction fuel as [|fuel IH]; intros taxid e H;
    [destruct (walk_cases 0 db taxid) as [E W|r E En W|r E En Hf W|r f E En Hf W]
    |destruct (walk_cases (S fuel) db taxid)
       as [E W|r E En W|r E En Hf W|r f E En Hf W]];
    rewrite W in H; try discriminate; try (inversion Hf; subst f).
  - exists 0%nat. split; [lia|]. unfold dangles_at. simpl. now rewrite E.
  - exists 0%nat. split; [lia|]. unfold dangles_at. simpl. now rewrite E.
  - destruct (walk_from fuel db (parent_taxid r)) as [l|e'|] eqn:Wp;
      simpl in H; try discriminate.
    destruct (IH _ _ Wp) as [k [Hk Hd]].
    exists (S k). split; [lia|]. now rewrite dangles_at_S, E, En.
Qed.

Lemma walk_from_diverges fuel db :
  forall taxid, (forall k, inner_chain db taxid k = true) ->
    walk_from fuel db taxid = Diverged.
Proof.
  induction fuel as [|fuel IH]; intros taxid H;
    [destruct (walk_cases 0 db taxid) as [E W|r E En W|r E En Hf W|r f E En Hf W]
    |destruct (walk_cases (S fuel) db taxid)
       as [E W|r E En W|r E En Hf W|r f E En Hf W]];
    try (inversion Hf; subst f);
    try (pose proof (H 1%nat) as H1; rewrite inner_chain_S, E in H1;
         try rewrite En in H1; discriminate).
  - exact W.
  - rewrite W, IH; [reflexivity|]. intros k. pose proof (H (S k)) as Hk.
    rewrite inner_chain_S, E, En in Hk. exact Hk.
Qed.

Lemma Taxa_get_returned expr db r :
  Taxa_get expr db = Returned r -> find expr db = Some r.
Proof.
  unfold Taxa_get. destruct (find expr db); intros H; now inversion H.
Qed.

Lemma finish_returned_list {A B : Type} reverse (f : A -> B) c (l : list B) :
  finish reverse (outcome_map (map f) c) = Returned (Some l) ->
  exists rows, c = Returned rows /\
    l = if reverse then rev (map f rows) else map f rows.
Proof.
  unfold finish. destruct c as [rows|[|]|]; simpl; intros H; try discriminate.
  inversion H. now exists rows.
Qed.

Lemma finish_returned_none {A B : Type} reverse (f : A -> B) c :
  finish reverse (outcome_map (map f) c) = Returned None ->
  c = Raised DoesNotExist.
Proof.
  unfold finish. destruct c as [rows|[|]|]; simpl; intros H;
    try discriminate; reflexivity.
Qed.

Lemma length_maybe_rev {A : Type} (reverse : bool) (l : list A) :
  List.length (if reverse then rev l else l) = List.length l.
Proof. destruct reverse; [apply length_rev|reflexivity]. Qed.

(** ** The lineage of a taxon and of its parent *)

(** X1: the lineage of a stored taxon that is not the root is the taxon
    itself followed by the lineage of its parent, at the cost of one more
    iteration: [lineage_id] puts the taxid in front (at the end when
    [reverse] is set), [lineage_name] the name; where the parent's lineage
    is [None] or unfinished, so is the taxon's. *)
Theorem lineage_of_parent fuel db taxid r :
  Taxa_get (ncbi_taxid_eq taxid) db = Returned r ->
  tax_name r <> "root" ->
  lineage_id (S fuel) db taxid false
  = outcome_map (option_map (cons taxid))
      (lineage_id fuel db (parent_taxid r) false) /\
  lineage_id (S fuel) db taxid true
  = outcome_map (option_map (fun l => l ++ [taxid]))
      (lineage_id fuel db (parent_taxid r) true) /\
  lineage_name (S fuel) db taxid false
  = outcome_map (option_map (cons (tax_name r)))
      (lineage_name fuel db (parent_taxid r) false) /\
  lineage_name (S fuel) db taxid true
  = outcome_map (option_map (fun l => l ++ [tax_name r]))
      (lineage_name fuel db (parent_taxid r) true).
Proof.
  intros Hg Hn. apply Taxa_get_returned in Hg.
  apply String.eqb_neq in Hn.
  destruct (find_ncbi_taxid db taxid r Hg) as [_ Hid].
  rewrite !lineage_id_walk, !lineage_name_walk.
  rewrite (walk_from_step fuel db taxid r Hg Hn). unfold finish.
  destruct (walk_from fuel db (parent_taxid r)) as [rows|[|]|]; simpl;
    rewrite ?Hid; repeat split; reflexivity.
Qed.

Lemma lineage_of_parent_witness :
  lineage_id 2 scenario 3 false
  = outcome_map (option_map (cons 3)) (lineage_id 1 scenario 2 false).
Proof.
  apply (lineage_of_parent 1 scenario 3 (mkTaxa 3 "Homo sapiens" 2)).
  - reflexivity.
  - discriminate.
Defined.

(** ** Reading a result back *)

(** X2: whenever [lineage_id] or [lineage_name] returns a list, the
    parent chain of the taxid reaches the row named "root" in exactly as
    many hops as the list is long, and the loop ran that many iterations. *)
Theorem lineage_list_inv fuel db taxid reverse :
  (forall ids, lineage_id fuel db taxid reverse = Returned (Some ids) ->
     reaches_root_in db taxid (List.length ids) = true /\
     (List.length ids <= fuel)%nat) /\
  (forall names, lineage_name fuel db taxid reverse = Returned (Some names) ->
     reaches_root_in db taxid (List.length names) = true /\
     (List.length names <= fuel)%nat).
Proof.
  split.
  - intros ids H. rewrite lineage_id_walk in H.
    apply finish_returned_list in H. destruct H as [rows [W ->]].
    rewrite length_maybe_rev, length_map.
    destruct (walk_from_returned_inv fuel db taxid rows W) as [Hr [Hl _]]. auto.
  - intros names H. rewrite lineage_name_walk in H.
    apply finish_returned_list in H. destruct H as [rows [W ->]].
    rewrite length_maybe_rev, length_map.
    destruct (walk_from_returned_inv fuel db taxid rows W) as [Hr [Hl _]]. auto.
Qed.

Lemma lineage_list_inv_witness :
  reaches_root_in scenario 3 (List.length [2; 3]) = true /\
  (List.length [2; 3] <= 5)%nat.
Proof.
  apply (proj1 (lineage_list_inv 5 scenario 3 true) [2; 3]). reflexivity.
Defined.

(** X3: [lineage_id] returns [None] for some number of iterations exactly
    when the parent chain breaks -- the taxid itself, or a parent pointer
    reached through rows not named "root", names no row -- and so does
    [lineage_name]. *)
Theorem lineage_none_iff_dangles db taxid reverse :
  ((exists fuel, lineage_id fuel db taxid reverse = Returned None) <->
   (exists k, dangles_at db taxid k = true)) /\
  ((exists fuel, lineage_name fuel db taxid reverse = Returned None) <->
   (exists k, dangles_at db taxid k = true)).
Proof.
  split; split.
  - intros [fuel H]. rewrite lineage_id_walk in H.
    apply finish_returned_none in H.
    destruct (walk_from_raised_inv fuel db taxid _ H) as [k [_ Hk]]. now exists k.
  - intros [k H]. exists k. now apply (lineage_id_dangles db taxid k).
  - intros [fuel H]. rewrite lineage_name_walk in H.
    apply finish_returned_none in H.
    destruct (walk_from_raised_inv fuel db taxid _ H) as [k [_ Hk]]. now exists k.
  - intros [k H]. exists k. now apply (lineage_name_dangles db taxid k).
Qed.

Lemma lineage_none_iff_dangles_witness :
  exists k, dangles_at [mkTaxa 3 "Homo sapiens" 2] 3 k = true.
Proof.
  apply (proj1 (proj1 (lineage_none_iff_dangles
                          [mkTaxa 3 "Homo sapiens" 2] 3 false))).
  exists 1%nat. reflexivity.
Defined.

(** ** The empty lineage *)

(** X4: [lineage_id] returns the empty list exactly when [sci_name] of
    the taxid is "root", for both values of [reverse] and any number of
    iterations. *)
Theorem lineage_id_empty_iff_root fuel db taxid reverse :
  lineage_id fuel db taxid reverse = Returned (Some [])
  <-> sci_name db taxid = Returned (Some "root").
Proof.
  split.
  - intros H. rewrite lineage_id_walk in H.
    apply finish_returned_list in H. destruct H as [rows [W Hl]].
    assert (rows = []) as ->.
    { destruct rows as [|r rows]; [reflexivity|].
      destruct reverse; simpl in Hl; [|discriminate].
      symmetry in Hl. now apply app_eq_nil in Hl. }
    destruct (walk_from_returned_inv fuel db taxid [] W) as [Hr _].
    unfold reaches_root_in in Hr. simpl in Hr.
    unfold sci_name, Taxa_get.
    destruct (find (ncbi_taxid_eq taxid) db) as [r|]; [|discriminate].
    simpl in *. apply String.eqb_eq in Hr. now rewrite Hr.
  - intros H. unfold sci_name, Taxa_get in H. rewrite lineage_id_walk.
    destruct (find (ncbi_taxid_eq taxid) db) as [r|] eqn:E; simpl in H;
      [|discriminate].
    inversion H as [Hn].
    rewrite (walk_from_root fuel db taxid r E).
    + destruct reverse; reflexivity.
    + rewrite Hn. reflexivity.
Qed.

(** ** Cycles *)

Lemma inner_chain_spec db taxid k :
  inner_chain db taxid k = true
  <-> forall i, (i < k)%nat -> is_inner (ancestor db taxid i) = true.
Proof.
  unfold inner_chain. rewrite forallb_forall. split.
  - intros H i Hi. apply H. apply in_seq. lia.
  - intros H i Hi. apply in_seq in Hi. apply H. lia.
Qed.

(** The hops from a row on are the hops from its taxid. *)
Lemma ancestor_add db taxid a r :
  ancestor db taxid a = Some r ->
  forall b, ancestor db taxid (a + b) = ancestor db (ncbi_taxid r) b.
Proof.
  intros Ha b. induction b as [|b IH].
  - rewrite Nat.add_0_r, Ha. simpl. symmetry.
    now apply (ancestor_keyed db taxid a).
  - rewrite Nat.add_succ_r. simpl. now rewrite IH.
Qed.

Lemma cycle_inner_chain db taxid k :
  inner_chain db taxid (S k) = true ->
  option_map ncbi_taxid (ancestor db taxid (S k)) = Some taxid ->
  forall n, inner_chain db taxid n = true.
Proof.
  intros Hin Hback.
  destruct (ancestor db taxid (S k)) as [r|] eqn:Ea; [|discriminate].
  simpl in Hback. injection Hback as Hid.
  rewrite inner_chain_spec in Hin.
  assert (Hall : forall i, is_inner (ancestor db taxid i) = true).
  { intros i. induction i as [i IH] using lt_wf_ind.
    destruct (Nat.lt_ge_cases i (S k)) as [Hlt|Hge]; [now apply Hin|].
    replace i with (S k + (i - S k))%nat by lia.
    rewrite (ancestor_add db taxid (S k) r Ea), Hid. apply IH. lia. }
  intros n. apply inner_chain_spec. intros i _. apply Hall.
Qed.

(** X5: when the parent chain of a taxid comes back to that taxid
    without passing a row named "root" (and without breaking), neither
    [lineage_id] nor [lineage_name] returns, however many iterations they
    are given: the loop has no other exit. *)
Theorem lineage_cycle_never_returns db taxid k :
  inner_chain db taxid (S k) = true ->
  option_map ncbi_taxid (ancestor db taxid (S k)) = Some taxid ->
  forall fuel reverse,
    lineage_id fuel db taxid reverse = Diverged /\
    lineage_name fuel db taxid reverse = Diverged.
Proof.
  intros Hin Hback fuel reverse.
  rewrite lineage_id_walk, lineage_name_walk.
  rewrite (walk_from_diverges fuel db taxid
             (cycle_inner_chain db taxid k Hin Hback)).
  split; reflexivity.
Qed.

Lemma lineage_cycle_never_returns_witness :
  lineage_id 1000 cycle_store 10 false = Diverged /\
  lineage_name 1000 cycle_store 10 false = Diverged.
Proof.
  apply (lineage_cycle_never_returns cycle_store 10 2); reflexivity.
Defined.

(** ** The taxids of a lineage *)

Lemma reaches_root_in_unique db k :
  forall taxid k',
    reaches_root_in db taxid k = true -> reaches_root_in db taxid k' = true ->
    k = k'.
Proof.
  induction k as [|k IH]; intros taxid [|k'] H H'; try reflexivity.
  - rewrite reaches_root_in_S in H'. unfold reaches_root_in in H. simpl in H.
    destruct (find (ncbi_taxid_eq taxid) db) as [r|]; [|discriminate].
    simpl in H. rewrite H in H'. discriminate.
  - rewrite reaches_root_in_S in H. unfold reaches_root_in in H'. simpl in H'.
    destruct (find (ncbi_taxid_eq taxid) db) as [r|]; [|discriminate].
    simpl in H'. rewrite H' in H. discriminate.
  - rewrite reaches_root_in_S in H, H'.
    destruct (find (ncbi_taxid_eq taxid) db) as [r|]; [|discriminate].
    apply andb_prop in H, H'. destruct H as [_ H]. destruct H' as [_ H'].
    f_equal. now apply (IH (parent_taxid r)).
Qed.

Lemma chain_member_reaches db k :
  forall taxid r,
    reaches_root_in db taxid k = true -> In r (chain db taxid k) ->
    exists j, (j <= k)%nat /\ reaches_root_in db (ncbi_taxid r) j = true.
Proof.
  induction k as [|k IH]; intros taxid r H Hin; [destruct Hin|].
  pose proof H as H0. rewrite reaches_root_in_S in H. simpl in Hin.
  destruct (find (ncbi_taxid_eq taxid) db) as [q|] eqn:E; [|discriminate].
  apply andb_prop in H. destruct H as [_ H].
  destruct Hin as [->|Hin].
  - exists (S k). split; [lia|].
    destruct (find_ncbi_taxid db taxid r E) as [_ ->]. exact H0.
  - destruct (IH (parent_taxid q) r H Hin) as [j [Hj Hr]].
    exists j. split; [lia|exact Hr].
Qed.

Lemma chain_NoDup db k :
  forall taxid, reaches_root_in db taxid k = true ->
    NoDup (map ncbi_taxid (chain db taxid k)).
Proof.
  induction k as [|k IH]; intros taxid H; [constructor|].
  pose proof H as H0. rewrite reaches_root_in_S in H. simpl.
  destruct (find (ncbi_taxid_eq taxid) db) as [q|] eqn:E; [|discriminate].
  apply andb_prop in H. destruct H as [_ H]. simpl. constructor.
  - intros Hin. apply in_map_iff in Hin. destruct Hin as [r [Hid Hr]].
    destruct (chain_member_reaches db k _ r H Hr) as [j [Hj Hreach]].
    destruct (find_ncbi_taxid db taxid q E) as [_ Hq].
    rewrite Hid, Hq in Hreach.
    pose proof (reaches_root_in_unique db _ _ _ H0 Hreach). lia.
  - now apply IH.
Qed.

(** X6: a list returned by [lineage_id] never holds the same taxid
    twice. *)
Theorem lineage_id_NoDup fuel db taxid reverse ids :
  lineage_id fuel db taxid reverse = Returned (Some ids) -> NoDup ids.
Proof.
  intros H. rewrite lineage_id_walk in H.
  apply finish_returned_list in H. destruct H as [rows [W ->]].
  destruct (walk_from_returned_inv fuel db taxid rows W) as [Hr [_ Hc]].
  assert (Hnd : NoDup (map ncbi_taxid rows)).
  { rewrite Hc. now apply chain_NoDup. }
  destruct reverse; [|exact Hnd].
  now apply NoDup_rev.
Qed.

Lemma lineage_id_NoDup_witness : NoDup [3; 2].
Proof.
  apply (lineage_id_NoDup 2 scenario 3 false [3; 2]). reflexivity.
Defined.

(** X7: every taxid in a list returned by [lineage_id] is stored, under
    a name other than "root": [sci_name] returns that name; and a list
    returned by [lineage_name] never holds the name "root". *)
Theorem lineage_members_stored fuel db taxid reverse :
  (forall ids, lineage_id fuel db taxid reverse = Returned (Some ids) ->
     forall id, In id ids ->
       exists name, sci_name db id = Returned (Some name) /\ name <> "root") /\
  (forall names, lineage_name fuel db taxid reverse = Returned (Some names) ->
     ~ In "root" names).
Proof.
  split.
  - intros ids H id Hin. rewrite lineage_id_walk in H.
    apply finish_returned_list in H. destruct H as [rows [W ->]].
    assert (Hin' : In id (map ncbi_taxid rows)).
    { destruct reverse; [now apply in_rev|exact Hin]. }
    apply in_map_iff in Hin'. destruct Hin' as [r [<- Hr]].
    pose proof (walk_from_rows fuel db taxid rows W) as Hrows.
    rewrite Forall_forall in Hrows. destruct (Hrows r Hr) as [Hk Hn].
    exists (tax_name r). split; [|exact Hn].
    unfold sci_name, Taxa_get. unfold keyed in Hk. now rewrite Hk.
  - intros names H Hin. rewrite lineage_name_walk in H.
    apply finish_returned_list in H. destruct H as [rows [W ->]].
    assert (Hin' : In "root" (map tax_name rows)).
    { destruct reverse; [now apply in_rev|exact Hin]. }
    apply in_map_iff in Hin'. destruct Hin' as [r [Hroot Hr]].
    pose proof (walk_from_rows fuel db taxid rows W) as Hrows.
    rewrite Forall_forall in Hrows. destruct (Hrows r Hr) as [_ Hn].
    contradiction.
Qed.

Lemma lineage_members_stored_witness :
  exists name, sci_name scenario 2 = Returned (Some name) /\ name <> "root".
Proof.
  apply (proj1 (lineage_members_stored 2 scenario 3 false) [3; 2]).
  - reflexivity.
  - simpl. auto.
Defined.

(** ** What the point lookups return *)

Lemma find_name_present db name :
  name_present db name -> exists r, find (tax_name_eq name) db = Some r.
Proof.
  intros [r [Hin Hk]].
  destruct (find (tax_name_eq name) db) as [r'|] eqn:E; [now exists r'|].
  exfalso. apply (find_none _ _ E) in Hin.
  unfold tax_name_eq in Hin. apply String.eqb_neq in Hin. contradiction.
Qed.

(** X8: [sci_name] returns [None] exactly when no row carries the taxid,
    and a name it returns is the name of a stored row with that taxid;
    [tax_id] returns [None] exactly when no row carries the name, and a
    taxid it returns is the taxid of a stored row with that name. *)
Theorem point_lookup_results db :
  (forall taxid, sci_name db taxid = Returned None <-> ~ present db taxid) /\
  (forall taxid name, sci_name db taxid = Returned (Some name) ->
     exists r, In r db /\ ncbi_taxid r = taxid /\ tax_name r = name) /\
  (forall name, tax_id db name = Returned None <-> ~ name_present db name) /\
  (forall name taxid, tax_id db name = Returned (Some taxid) ->
     exists r, In r db /\ tax_name r = name /\ ncbi_taxid r = taxid).
Proof.
  repeat split.
  - intros H Hp. destruct (find_present db taxid Hp) as [r Hf].
    unfold sci_name, Taxa_get in H. rewrite Hf in H. discriminate.
  - apply sci_name_absent.
  - intros taxid name H. unfold sci_name, Taxa_get in H.
    destruct (find (ncbi_taxid_eq taxid) db) as [r|] eqn:E; simpl in H;
      [|discriminate].
    inversion H. exists r. destruct (find_ncbi_taxid db taxid r E). auto.
  - intros H Hp. destruct (find_name_present db name Hp) as [r Hf].
    unfold tax_id, Taxa_get in H. rewrite Hf in H. discriminate.
  - apply tax_id_absent.
  - intros name taxid H. unfold tax_id, Taxa_get in H.
    destruct (find (tax_name_eq name) db) as [r|] eqn:E; simpl in H;
      [|discriminate].
    inversion H. exists r. destruct (find_tax_name db name r E). auto.
Qed.

Lemma point_lookup_results_witness :
  exists r, In r scenario /\ ncbi_taxid r = 2 /\ tax_name r = "Eukaryota".
Proof.
  destruct (point_lookup_results scenario) as [_ [H _]].
  apply (H 2 "Eukaryota"). reflexivity.
Defined.

(** X9: for every name present in the store, the taxid column being the
    primary key, [tax_id] returns a taxid and [sci_name] of that taxid
    returns the name; no uniqueness of names is needed in this
    direction. *)
Theorem sci_name_of_tax_id db name :
  primary_key db -> name_present db name ->
  exists taxid,
    tax_id db name = Returned (Some taxid) /\
    sci_name db taxid = Returned (Some name).
Proof.
  intros Hpk Hp. destruct (find_name_present db name Hp) as [r Hf].
  destruct (find_tax_name db name r Hf) as [Hin Hn].
  exists (ncbi_taxid r). split.
  - unfold tax_id, Taxa_get. now rewrite Hf.
  - unfold sci_name, Taxa_get.
    pose proof (primary_key_keyed db r Hpk Hin) as Hk. unfold keyed in Hk.
    rewrite Hk. simpl. now rewrite Hn.
Qed.

Lemma sci_name_of_tax_id_witness :
  exists taxid,
    tax_id scenario "Eukaryota" = Returned (Some taxid) /\
    sci_name scenario taxid = Returned (Some "Eukaryota").
Proof.
  apply (sci_name_of_tax_id scenario "Eukaryota").
  - exact scenario_primary_key.
  - exists (mkTaxa 2 "Eukaryota" 1). simpl. auto.
Defined.

(** ** Fuzzy search: how many rows, and which *)

Lemma insert_desc_length a l :
  List.length (insert_desc a l) = S (List.length l).
Proof.
  induction l as [|y l IH]; simpl; [reflexivity|].
  destruct (Qle_bool (similarity y) (similarity a)); simpl; [reflexivity|].
  now rewrite IH.
Qed.

Lemma order_by_similarity_desc_length l :
  List.length (order_by_similarity_desc l) = List.length l.
Proof.
  induction l as [|a l IH]; simpl; [reflexivity|].
  now rewrite insert_desc_length, IH.
Qed.

Lemma sorted_app_inv {A : Type} (R : A -> A -> Prop) (l1 l2 : list A) :
  StronglySorted R (l1 ++ l2) ->
  forall a b, In a l1 -> In b l2 -> R a b.
Proof.
  induction l1 as [|x l1 IH]; simpl; intros Hs a b Ha Hb; [destruct Ha|].
  inversion Hs as [|? ? Hs' Hall]; subst.
  destruct Ha as [->|Ha].
  - rewrite Forall_forall in Hall. apply Hall. apply in_or_app. now right.
  - now apply IH.
Qed.

(** X10: the list [tax_id_fuzzy] returns has exactly as many rows as
    there are stored rows whose name passes the similarity operator, or
    [limit] rows (10 when no limit is given) when there are more. *)
Theorem tax_id_fuzzy_length pg_similarity pg_levenshtein pg_similar db name limit :
  exists rows,
    tax_id_fuzzy pg_similarity pg_levenshtein pg_similar db name limit
    = Returned (Some rows) /\
    List.length rows
    = Nat.min (match limit with Some n => n | None => 10%nat end)
              (List.length (where_similar pg_similar name db)).
Proof.
  eexists. split; [reflexivity|].
  now rewrite length_firstn, order_by_similarity_desc_length, length_map.
Qed.

(** X11: a stored row whose name passes the similarity operator is
    missing from the list [tax_id_fuzzy] returns only when the list is
    full -- it has [limit] rows -- and every row of it scores at least as
    high as the missing one. *)
Theorem tax_id_fuzzy_keeps_best pg_similarity pg_levenshtein pg_similar db name limit :
  exists rows,
    tax_id_fuzzy pg_similarity pg_levenshtein pg_similar db name limit
    = Returned (Some rows) /\
    forall r, In r db -> pg_similar (tax_name r) name = true ->
      In (select_fuzzy pg_similarity pg_levenshtein name r) rows \/
      (List.length rows = match limit with Some n => n | None => 10%nat end /\
       Forall (fun row => Qle (pg_similarity (tax_name r) name) (similarity row))
              rows).
Proof.
  eexists. split; [reflexivity|]. intros r Hin Hs.
  set (n := match limit with Some n => n | None => 10%nat end).
  set (all := order_by_similarity_desc
                (map (select_fuzzy pg_similarity pg_levenshtein name)
                     (where_similar pg_similar name db))).
  assert (Hall : In (select_fuzzy pg_similarity pg_levenshtein name r) all).
  { apply order_by_similarity_desc_In, in_map. unfold where_similar.
    apply filter_In. auto. }
  assert (Hsorted : StronglySorted similarity_desc all)
    by apply order_by_similarity_desc_sorted.
  rewrite <- (firstn_skipn n all) in Hall, Hsorted.
  apply in_app_or in Hall. destruct Hall as [Hkept|Hcut]; [now left|right].
  split.
  - rewrite length_firstn. apply Nat.min_l.
    destruct (Nat.le_gt_cases n (List.length all)) as [Hle|Hgt]; [exact Hle|].
    rewrite skipn_all2 in Hcut by lia. destruct Hcut.
  - rewrite Forall_forall. intros row Hrow.
    exact (sorted_app_inv similarity_desc _ _ Hsorted row _ Hrow Hcut).
Qed.

Lemma tax_id_fuzzy_keeps_best_witness :
  exists rows,
    tax_id_fuzzy toy_similarity toy_levenshtein toy_similar
      homo_store "Homo sapiens" (Some 1%nat)
    = Returned (Some rows) /\
    (In (select_fuzzy toy_similarity toy_levenshtein "Homo sapiens"
           (mkTaxa 9605 "Homo" 207598)) rows \/
     (List.length rows = 1%nat /\
      Forall (fun row => Qle (toy_similarity "Homo" "Homo sapiens")
                             (similarity row)) rows)).
Proof.
  destruct (tax_id_fuzzy_keeps_best toy_similarity toy_levenshtein toy_similar
              homo_store "Homo sapiens" (Some 1%nat)) as [rows [Hr Hbest]].
  exists rows. split; [exact Hr|].
  apply (Hbest (mkTaxa 9605 "Homo" 207598)); [simpl; auto | reflexivity].
Defined.




(** ** Where a lineage starts, and the lineage of an ancestor *)

Lemma walk_from_head fuel db taxid r rows :
  walk_from fuel db taxid = Returned (r :: rows) ->
  find (ncbi_taxid_eq taxid) db = Some r /\
  exists fuel', fuel = S fuel' /\
    walk_from fuel' db (parent_taxid r) = Returned rows.
Proof.
  intros H.
  destruct (walk_cases fuel db taxid) as [E W|q E En W|q E En Hf W|q f E En Hf W];
    rewrite W in H; try discriminate.
  destruct (walk_from f db (parent_taxid q)) as [l| |] eqn:Wp; simpl in H;
    try discriminate.
  inversion H; subst. split; [exact E|]. now exists f.
Qed.

Lemma walk_from_more_fuel fuel fuel' db taxid rows :
  walk_from fuel db taxid = Returned rows -> (fuel <= fuel')%nat ->
  walk_from fuel' db taxid = Returned rows.
Proof.
  intros H Hle.
  destruct (walk_from_returned_inv fuel db taxid rows H) as [Hr [Hl Hc]].
  rewrite (walk_from_reaches db _ taxid fuel' Hr); [now rewrite <- Hc|lia].
Qed.

Lemma walk_from_suffix fuel db pre :
  forall taxid r post,
    walk_from fuel db taxid = Returned (pre ++ r :: post) ->
    walk_from fuel db (ncbi_taxid r) = Returned (r :: post).
Proof.
  induction pre as [|q pre IH]; simpl; intros taxid r post H.
  - destruct (walk_from_head fuel db taxid r post H) as [E _].
    destruct (find_ncbi_taxid db taxid r E) as [_ ->]. exact H.
  - destruct (walk_from_head fuel db taxid q _ H) as [_ [f [-> Hp]]].
    apply (IH (parent_taxid q)).
    apply (walk_from_more_fuel f (S f)); [exact Hp|lia].
Qed.

(** X13: a non-empty list returned by [lineage_id] starts with the
    queried taxid itself (ends with it when [reverse] is set), and one
    returned by [lineage_name] starts with the name [sci_name] gives for
    that taxid. *)
Theorem lineage_starts_at_taxid fuel db taxid :
  (forall x l, lineage_id fuel db taxid false = Returned (Some (x :: l)) ->
     x = taxid) /\
  (forall x l, lineage_id fuel db taxid true = Returned (Some (l ++ [x])) ->
     x = taxid) /\
  (forall n l, lineage_name fuel db taxid false = Returned (Some (n :: l)) ->
     sci_name db taxid = Returned (Some n)).
Proof.
  repeat split.
  - intros x l H. rewrite lineage_id_walk in H.
    apply finish_returned_list in H. destruct H as [rows [W Hl]].
    destruct rows as [|r rows]; [discriminate|]. simpl in Hl. inversion Hl.
    destruct (walk_from_head fuel db taxid r rows W) as [E _].
    now destruct (find_ncbi_taxid db taxid r E).
  - intros x l H. rewrite lineage_id_walk in H.
    apply finish_returned_list in H. destruct H as [rows [W Hl]].
    destruct rows as [|r rows]; [now destruct l|]. simpl in Hl.
    apply app_inj_tail in Hl. destruct Hl as [_ ->].
    destruct (walk_from_head fuel db taxid r rows W) as [E _].
    now destruct (find_ncbi_taxid db taxid r E).
  - intros n l H. rewrite lineage_name_walk in H.
    apply finish_returned_list in H. destruct H as [rows [W Hl]].
    destruct rows as [|r rows]; [discriminate|]. simpl in Hl. inversion Hl.
    destruct (walk_from_head fuel db taxid r rows W) as [E _].
    unfold sci_name, Taxa_get. now rewrite E.
Qed.

Lemma lineage_starts_at_taxid_witness :
  sci_name scenario 3 = Returned (Some "Homo sapiens").
Proof.
  destruct (lineage_starts_at_taxid 2 scenario 3) as [_ [_ H]].
  apply (H "Homo sapiens" ["Eukaryota"]). reflexivity.
Defined.

(** X14: the lineage of a taxid that occurs in a lineage is the rest of
    that lineage from the taxid on: when [lineage_id(taxid)] returns
    [pre ++ id :: post], [lineage_id(id)] returns [id :: post]. *)
Theorem lineage_of_member fuel db taxid pre id post :
  lineage_id fuel db taxid false = Returned (Some (pre ++ id :: post)) ->
  lineage_id fuel db id false = Returned (Some (id :: post)).
Proof.
  intros H. rewrite lineage_id_walk in H.
  apply finish_returned_list in H. destruct H as [rows [W Hl]].
  symmetry in Hl. apply map_eq_app in Hl.
  destruct Hl as [rpre [rrest [-> [_ Hrest]]]].
  apply map_eq_cons in Hrest. destruct Hrest as [r [rpost [-> [<- <-]]]].
  rewrite lineage_id_walk, (walk_from_suffix fuel db rpre taxid r rpost W).
  reflexivity.
Qed.

Lemma lineage_of_member_witness :
  lineage_id 2 scenario 2 false = Returned (Some [2]).
Proof.
  apply (lineage_of_member 2 scenario 3 [3] 2 []). reflexivity.
Defined.
